(** * The llama.cpp JNI bridge and the Sherpa-ONNX bridge header

    A shallow embedding of
    [examples/android/RunAnywhereAI/app/src/main/cpp/llama_jni.cpp]
    (the eight [native*] entry points and the [LlamaModel] struct) and of
    the speaker accessors declared in
    [sdk/runanywhere-swift/Modules/SherpaONNXTTS/Sources/SherpaONNXBridge/SherpaONNXBridge.h].

    Conventions of the embedding.
    - A [jlong] handle is the address of a [LlamaModel] on the C++ heap; the
      heap is a finite map from addresses to the objects that are alive.
      [reinterpret_cast] between [jlong] and [LlamaModel*] keeps the value
      of a pointer, so an entry point is given its handle as the pointer it
      tests and reads through. On the 32-bit ABIs the cast drops the upper
      half of a [jlong]; [is_pointer] singles out the handles it keeps,
      and what is stated of handles that are neither null nor live is
      stated of those.
    - Reading through a pointer to no live object, deleting such a pointer
      and dividing by zero have undefined behaviour in C++: the outcome
      [Undefined].
    - A [jstring] is represented by its modified UTF-8 byte sequence, the
      view [GetStringUTFChars] gives native code and [NewStringUTF] reads.
    - [char] is signed on the x86 ABIs and unsigned on the ARM ABIs;
      [size_t] has 32 or 64 bits. Both are read off the target ABI.
    - Logging ([LOGI], [LOGE]) has no effect on results and is left out.
      Exhaustion of memory is outside the model: [operator new] always
      yields an address and containers are unbounded lists. *)

From Stdlib Require Import ZArith List Lia Strings.Byte.
From Stdlib Require Import Strings.String Numbers.DecimalString.
From Stdlib Require Import Numbers.DecimalPos Numbers.DecimalZ.
From stdpp Require Import gmap.

Local Open Scope Z_scope.

(** ** Machine integers and target ABIs *)

Module Machine.

(** The four ABIs the Android NDK builds for. *)
Inductive abi : Type := abi_armeabi_v7a | abi_arm64_v8a | abi_x86 | abi_x86_64.

Definition char_is_signed (a : abi) : bool :=
  match a with
  | abi_x86 | abi_x86_64 => true
  | abi_armeabi_v7a | abi_arm64_v8a => false
  end.

Definition size_t_bits (a : abi) : Z :=
  match a with
  | abi_arm64_v8a | abi_x86_64 => 64
  | abi_armeabi_v7a | abi_x86 => 32
  end.

(** Conversion to an unsigned integer of [w] bits: reduction modulo [2^w]. *)
Definition to_unsigned (w z : Z) : Z := z mod 2 ^ w.

(** Conversion to a signed integer of [w] bits (two's complement). *)
Definition to_signed (w z : Z) : Z :=
  let u := to_unsigned w z in
  if u <? 2 ^ (w - 1) then u else u - 2 ^ w.

Definition to_size_t (a : abi) (z : Z) : Z := to_unsigned (size_t_bits a) z.
Definition to_jint (z : Z) : Z := to_signed 32 z.
Definition to_jlong (z : Z) : Z := to_signed 64 z.

(** A pointer is as wide as [size_t] on each of the four ABIs. *)
Definition pointer_bits (a : abi) : Z := size_t_bits a.

(** [reinterpret_cast<LlamaModel*>(z)] of a 64-bit integer [z]: its low
    [pointer_bits] bits. *)
Definition reinterpret_cast_pointer (a : abi) (z : Z) : Z :=
  to_unsigned (pointer_bits a) z.

(** The integers the cast keeps: the pointer values of the ABI. *)
Definition is_pointer (a : abi) (z : Z) : Prop :=
  reinterpret_cast_pointer a z = z.

(** The value of a [char] holding byte [b], promoted to [int]. *)
Definition char_value (a : abi) (b : byte) : Z :=
  let n := Z.of_N (Byte.to_N b) in
  if char_is_signed a && (128 <=? n) then n - 256 else n.

End Machine.
Export Machine.

(** ** Byte strings *)

Module Bytes.

Definition is_nul (b : byte) : bool := Byte.eqb b x00.

(** The C string a [char] buffer denotes: its bytes before the first NUL. *)
Fixpoint cstr (buf : list byte) : list byte :=
  match buf with
  | [] => []
  | b :: rest => if is_nul b then [] else b :: cstr rest
  end.

Definition nul_free (s : list byte) : Prop := cstr s = s.

(** A string literal of the source, as bytes. *)
Definition lit (s : string) : list byte := list_byte_of_string s.

(** [std::to_string] of an [int]: decimal digits, a leading minus sign for
    negative values. *)
Definition to_string (n : Z) : list byte :=
  list_byte_of_string (NilZero.string_of_int (Z.to_int n)).

End Bytes.
Export Bytes.

(** ** JNI types and the string functions the bridge calls *)

Module JNI.

Abbreviation jlong := Z.
Abbreviation jint := Z.
Abbreviation jsize := Z.
(** A [jfloat] is carried as its IEEE 754 binary32 bit pattern; the bridge
    performs no floating-point operation. *)
Abbreviation jfloat := Z.
Abbreviation jstring := (list byte).
(** A [jintArray] reference; [None] is the null reference. *)
Abbreviation jintArray := (option (list Z)).

(** [env->GetStringUTFChars(s, nullptr)]: the NUL-terminated buffer of [s]. *)
Definition GetStringUTFChars (s : jstring) : list byte := s.

(** [env->NewStringUTF(chars)]: the string read from a C string. *)
Definition NewStringUTF (chars : list byte) : jstring := cstr chars.

(** [std::string(const char* )]. *)
Definition std_string (chars : list byte) : list byte := cstr chars.

End JNI.
Export JNI.

(** ** The C++ heap and the outcome of a native call *)

(** [struct LlamaModel]. *)
Record LlamaModel : Type := mkLlamaModel {
  model_path : list byte;
  vocab_size : Z;
  context_size : Z;
  loaded : bool
}.

(** The constructor
    [LlamaModel(const std::string& path) : model_path(path), vocab_size(32000),
     context_size(2048), loaded(false)]. *)
Definition LlamaModel_ctor (path : list byte) : LlamaModel :=
  {| model_path := path; vocab_size := 32000; context_size := 2048;
     loaded := false |}.

Definition set_loaded (v : bool) (m : LlamaModel) : LlamaModel :=
  {| model_path := model_path m; vocab_size := vocab_size m;
     context_size := context_size m; loaded := v |}.

(** The live [LlamaModel] objects, by address. *)
Abbreviation heap := (gmap Z LlamaModel).

(** What a native call does: it returns, or its behaviour is undefined. *)
Inductive outcome (A : Type) : Type :=
| Ret (a : A)
| Undefined.
Arguments Ret {A} a.
Arguments Undefined {A}.

(** Native code runs against the heap. *)
Definition M (A : Type) : Type := heap -> outcome (A * heap).

Definition ret {A} (a : A) : M A := fun h => Ret (a, h).

Definition bind {A B} (c : M A) (k : A -> M B) : M B :=
  fun h =>
    match c h with
    | Ret (a, h') => k a h'
    | Undefined => Undefined
    end.

Definition undefined {A} : M A := fun _ => Undefined.

Notation "x <- c ;; k" := (bind c (fun x => k))
  (at level 100, c at next level, right associativity).
Notation "c ;;; k" := (bind c (fun _ => k))
  (at level 100, k at level 200, right associativity).

(** [operator new]: the address it yields is not null and holds no live
    object. Which address that is stays the allocator's choice. *)
Class Allocator : Type := {
  operator_new : heap -> Z;
  operator_new_nonnull : forall h : heap, operator_new h <> 0;
  operator_new_fresh : forall h : heap, h !! operator_new h = None
}.

(** [new LlamaModel(path)]. *)
Definition new_LlamaModel `{Allocator} (path : list byte) : M Z :=
  fun h =>
    let p := operator_new h in
    Ret (p, <[p := LlamaModel_ctor (std_string path)]> h).

(** Reading [*p]. *)
Definition deref (p : Z) : M LlamaModel :=
  fun h =>
    match h !! p with
    | Some m => Ret (m, h)
    | None => Undefined
    end.

(** [p->loaded = v]. *)
Definition store_loaded (p : Z) (v : bool) : M unit :=
  fun h =>
    match h !! p with
    | Some m => Ret (tt, <[p := set_loaded v m]> h)
    | None => Undefined
    end.

(** [delete p] for a non-null [p]. *)
Definition delete_LlamaModel (p : Z) : M unit :=
  fun h =>
    match h !! p with
    | Some _ => Ret (tt, delete p h)
    | None => Undefined
    end.

(** ** The native entry points of llama_jni.cpp *)

(** Each entry point starts with
    [auto* model = reinterpret_cast<LlamaModel*>(modelPtr)], written
    [let model := modelPtr] below: [modelPtr] stands for a pointer value of
    the target ([is_pointer]), which the cast leaves as it is. Null and the
    addresses [operator new] yields are such values. *)

Definition error_not_loaded : list byte := lit "Error: Model not loaded".

(** [nativeLoadModel]: the model is constructed from the path and marked
    loaded; the path is never opened. The handle is the model's address. *)
Definition nativeLoadModel `{Allocator} (modelPath : jstring) : M jlong :=
  let path := GetStringUTFChars modelPath in
  model <- new_LlamaModel path ;;
  store_loaded model true ;;;
  ret model.

(** The placeholder response [nativeGenerate] builds for a model path. *)
Definition response_for (path : list byte) : list byte :=
  let response := lit "Generated response from llama.cpp model. " in
  let response := response ++ lit "This is a placeholder implementation. " in
  let response := response ++
    lit "In a real implementation, this would use the actual llama.cpp library " in
  let response := response ++
    lit "to generate text based on the GGUF model loaded from: " in
  response ++ path.

(** [nativeGenerate]. The test [!model || !model->loaded] reads the object
    only when the pointer is not null. *)
Definition nativeGenerate (modelPtr : jlong) (prompt : jstring)
    (maxTokens : jint) (temperature topP : jfloat) (topK : jint) : M jstring :=
  let model := modelPtr in
  if model =? 0 then ret (NewStringUTF error_not_loaded) else
  m <- deref model ;;
  if negb (loaded m) then ret (NewStringUTF error_not_loaded) else
  let promptStr := GetStringUTFChars prompt in
  let response := response_for (model_path m) in
  ret (NewStringUTF response).

(** [nativeFreeModel]. *)
Definition nativeFreeModel (modelPtr : jlong) : M unit :=
  let model := modelPtr in
  if model =? 0 then ret tt else delete_LlamaModel model.

(** [nativeGetModelSize]: the object is not read. [1024L * 1024L * 500L]
    fits a 32-bit [long]. *)
Definition nativeGetModelSize (modelPtr : jlong) : M jlong :=
  let model := modelPtr in
  if model =? 0 then ret 0 else ret (1024 * 1024 * 500).

(** [nativeGetVocabSize]. *)
Definition nativeGetVocabSize (modelPtr : jlong) : M jlong :=
  let model := modelPtr in
  if model =? 0 then ret 0 else
  m <- deref model ;;
  ret (to_jlong (vocab_size m)).

(** [nativeGetContextSize]. *)
Definition nativeGetContextSize (modelPtr : jlong) : M jlong :=
  let model := modelPtr in
  if model =? 0 then ret 0 else
  m <- deref model ;;
  ret (to_jlong (context_size m)).

(** [static_cast<jint>((input[pos] * 31 + pos) % model->vocab_size)]:
    the product is an [int], the sum and the remainder are taken in
    [size_t], since [pos] is a [size_t]. *)
Definition pseudo_token (target : abi) (vocab : Z) (c : byte) (pos : Z) : jint :=
  to_jint
    (to_size_t target (to_size_t target (char_value target c * 31) + pos)
       mod vocab).

(** The loop [while (pos < input.length()) { tokens.push_back(..); pos++; }]
    on the bytes of [input] from [pos] onwards. A remainder by zero is
    undefined. *)
Fixpoint tokenize_loop (target : abi) (vocab : Z) (rest : list byte)
    (pos : Z) (tokens : list jint) : outcome (list jint) :=
  match rest with
  | [] => Ret tokens
  | c :: rest' =>
      if vocab =? 0 then Undefined
      else tokenize_loop target vocab rest' (pos + 1)
             (tokens ++ [pseudo_token target vocab c pos])
  end.

(** [nativeTokenize]: [nullptr] for a null or unloaded model, otherwise a
    new Java array holding the tokens. *)
Definition nativeTokenize (target : abi) (modelPtr : jlong) (text : jstring)
    : M jintArray :=
  let model := modelPtr in
  if model =? 0 then ret None else
  m <- deref model ;;
  if negb (loaded m) then ret None else
  let textStr := GetStringUTFChars text in
  let input := std_string textStr in
  match tokenize_loop target (vocab_size m) input 0 [] with
  | Ret tokens => ret (Some tokens)
  | Undefined => undefined
  end.

(** [nativeDetokenize]: only the length of the array reaches the result.
    [GetArrayLength] must not be given a null reference. *)
Definition nativeDetokenize (modelPtr : jlong) (tokens : jintArray)
    : M jstring :=
  let model := modelPtr in
  if model =? 0 then ret (NewStringUTF (lit "")) else
  m <- deref model ;;
  if negb (loaded m) then ret (NewStringUTF (lit "")) else
  match tokens with
  | None => undefined
  | Some elems =>
      let length : jsize := Z.of_nat (List.length elems) in
      let tokenVec := elems in
      let result :=
        lit "Detokenized text from " ++ to_string length ++ lit " tokens" in
      ret (NewStringUTF result)
  end.

(** ** Clients of the bridge *)

(** One call across the JNI boundary. *)
Inductive call : Type :=
| CallLoadModel (modelPath : jstring)
| CallGenerate (modelPtr : jlong) (prompt : jstring) (maxTokens : jint)
    (temperature topP : jfloat) (topK : jint)
| CallFreeModel (modelPtr : jlong)
| CallGetModelSize (modelPtr : jlong)
| CallGetVocabSize (modelPtr : jlong)
| CallGetContextSize (modelPtr : jlong)
| CallTokenize (modelPtr : jlong) (text : jstring)
| CallDetokenize (modelPtr : jlong) (tokens : jintArray).

Definition heap_after {A} (o : outcome (A * heap)) : outcome heap :=
  match o with
  | Ret (_, h) => Ret h
  | Undefined => Undefined
  end.

Section Clients.
Context `{Allocator} (target : abi).

(** The heap a call leaves behind. *)
Definition run (c : call) (h : heap) : outcome heap :=
  match c with
  | CallLoadModel p => heap_after (nativeLoadModel p h)
  | CallGenerate p s n t tp tk => heap_after (nativeGenerate p s n t tp tk h)
  | CallFreeModel p => heap_after (nativeFreeModel p h)
  | CallGetModelSize p => heap_after (nativeGetModelSize p h)
  | CallGetVocabSize p => heap_after (nativeGetVocabSize p h)
  | CallGetContextSize p => heap_after (nativeGetContextSize p h)
  | CallTokenize p s => heap_after (nativeTokenize target p s h)
  | CallDetokenize p ts => heap_after (nativeDetokenize p ts h)
  end.

(** The heaps a client can bring about, starting with no model, by calls
    whose behaviour is defined. *)
Inductive reachable : heap -> Prop :=
| reachable_init : reachable ∅
| reachable_step (c : call) (h h' : heap) :
    reachable h -> run c h = Ret h' -> reachable h'.

End Clients.

(** What every live model of a reachable heap satisfies. *)
Record model_ok (m : LlamaModel) : Prop := {
  ok_vocab : vocab_size m = 32000;
  ok_context : context_size m = 2048;
  ok_loaded : loaded m = true;
  ok_path : nul_free (model_path m)
}.

Definition heap_ok (h : heap) : Prop :=
  h !! 0 = None /\ forall p m, h !! p = Some m -> model_ok m.

(** The state of a handle, read off the heap: the null handle stands for no
    model, a live address for a loaded one, any other address for a model
    that was released (or never was). *)
Inductive handle_state : Type := Unloaded | Loaded | Released.

Definition state_of (h : heap) (handle : jlong) : handle_state :=
  if handle =? 0 then Unloaded
  else match h !! handle with
       | Some _ => Loaded
       | None => Released
       end.

(** A bump allocator: one past the highest live address, and at least 1. *)
Definition bump (h : heap) : Z :=
  1 + map_fold (fun p _ top => Z.max p top) 0 h.

(** Calls in sequence, up to the first whose behaviour is undefined. *)
Fixpoint run_all `{Allocator} (target : abi) (cs : list call) (h : heap)
    : outcome heap :=
  match cs with
  | [] => Ret h
  | c :: cs' =>
      match run target c h with
      | Ret h' => run_all target cs' h'
      | Undefined => Undefined
      end
  end.

(** The handle a call passes, if it passes one. *)
Definition call_handle (c : call) : option Z :=
  match c with
  | CallLoadModel _ => None
  | CallGenerate modelPtr _ _ _ _ _ => Some modelPtr
  | CallFreeModel modelPtr => Some modelPtr
  | CallGetModelSize modelPtr => Some modelPtr
  | CallGetVocabSize modelPtr => Some modelPtr
  | CallGetContextSize modelPtr => Some modelPtr
  | CallTokenize modelPtr _ => Some modelPtr
  | CallDetokenize modelPtr _ => Some modelPtr
  end.

(** Calls whose handles are pointer values of the target. *)
Definition pointer_call (target : abi) (c : call) : Prop :=
  match call_handle c with
  | Some modelPtr => is_pointer target modelPtr
  | None => True
  end.

Definition pointer_calls (target : abi) (cs : list call) : Prop :=
  Forall (pointer_call target) cs.

(** The calls that load a model, and those that release a handle other
    than null. *)
Definition is_load (c : call) : bool :=
  match c with
  | CallLoadModel _ => true
  | _ => false
  end.

Definition is_release (c : call) : bool :=
  match c with
  | CallFreeModel modelPtr => negb (modelPtr =? 0)
  | _ => false
  end.

(** Every operation but [nativeLoadModel] and [nativeFreeModel] answers
    with its sentinel and leaves the heap alone. *)
Definition reports_sentinels (target : abi) (handle : jlong) (h : heap)
    : Prop :=
  (forall prompt maxTokens temperature topP topK,
     nativeGenerate handle prompt maxTokens temperature topP topK h =
     Ret (lit "Error: Model not loaded", h)) /\
  (forall text, nativeTokenize target handle text h = Ret (None, h)) /\
  (forall tokens, nativeDetokenize handle tokens h = Ret ([], h)) /\
  nativeGetVocabSize handle h = Ret (0, h) /\
  nativeGetContextSize handle h = Ret (0, h) /\
  nativeGetModelSize handle h = Ret (0, h).

(** Every operation that reads the model or deletes it has undefined
    behaviour. *)
Definition reads_freed_memory (target : abi) (handle : jlong) (h : heap)
    : Prop :=
  (forall prompt maxTokens temperature topP topK,
     nativeGenerate handle prompt maxTokens temperature topP topK h =
     Undefined) /\
  (forall text, nativeTokenize target handle text h = Undefined) /\
  (forall tokens, nativeDetokenize handle tokens h = Undefined) /\
  nativeGetVocabSize handle h = Undefined /\
  nativeGetContextSize handle h = Undefined /\
  nativeFreeModel handle h = Undefined.

(** The heap after loading "model.gguf" on the bump allocator: one model,
    at address 1. *)
Definition demo_heap : heap :=
  {[ 1 := mkLlamaModel (lit "model.gguf") 32000 2048 true ]}.

(** ** The Sherpa-ONNX bridge *)

Module Sherpa.

(** Modelled from the spec: the implementation of [SherpaONNXBridge]
    (its [@implementation]) is not among the sources, only the header that
    declares the methods. An initialised instance wraps a loaded model,
    which fixes the number of speakers and the sample rate. *)
Record SherpaONNXBridge : Type := {
  tts_num_speakers : Z;
  tts_sample_rate : Z
}.

(** Modelled from the spec: [- (NSInteger)numberOfSpeakers], "pure
    accessor, valid even before first synthesis call". *)
Definition numberOfSpeakers (self : SherpaONNXBridge) : Z :=
  tts_num_speakers self.

(** Modelled from the spec: [- (NSInteger)sampleRate], "fixed per loaded
    model". *)
Definition sampleRate (self : SherpaONNXBridge) : Z := tts_sample_rate self.

(** Modelled from the spec: [- (BOOL)isValidSpeaker:(NSInteger)speakerId],
    "0 <= id < NumberOfSpeakers()", the speaker ids being 0-based with the
    speaker count as exclusive upper bound. *)
Definition isValidSpeaker (self : SherpaONNXBridge) (speakerId : Z) : bool :=
  (0 <=? speakerId) && (speakerId <? numberOfSpeakers self).

End Sherpa.

(** ** Basic facts *)

Lemma bump_bounds (h : heap) :
  0 <= map_fold (fun p _ top => Z.max p top) 0 h /\
  forall p, is_Some (h !! p) -> p <= map_fold (fun p _ top => Z.max p top) 0 h.
Proof.
  apply (map_fold_weak_ind
           (fun top (m : heap) => 0 <= top /\ forall p, is_Some (m !! p) -> p <= top)).
  - split; [lia |]. intros p [m Hm]. by rewrite lookup_empty in Hm.
  - intros i x m r _ [Hr IH]. split; [lia |].
    intros p Hp. destruct (decide (i = p)) as [-> | Hne]; [lia |].
    rewrite lookup_insert_ne in Hp by done. specialize (IH p Hp). lia.
Qed.

Lemma bump_nonnull (h : heap) : bump h <> 0.
Proof. unfold bump. pose proof (bump_bounds h) as [H0 _]. lia. Qed.

Lemma bump_fresh (h : heap) : h !! bump h = None.
Proof.
  destruct (h !! bump h) eqn:E; [| done].
  pose proof (bump_bounds h) as [_ Hle].
  specialize (Hle (bump h)). rewrite E in Hle.
  specialize (Hle (ex_intro _ _ eq_refl)). unfold bump in Hle. lia.
Qed.

(** The bump allocator is an allocator. *)
Instance bump_allocator : Allocator :=
  {| operator_new := bump;
     operator_new_nonnull := bump_nonnull;
     operator_new_fresh := bump_fresh |}.

Example load_on_bump :
  nativeLoadModel (lit "m.gguf") ∅ =
  Ret (1, {[ 1 := {| model_path := lit "m.gguf"; vocab_size := 32000;
                     context_size := 2048; loaded := true |} ]}).
Proof. vm_compute. reflexivity. Qed.

(** The byte 0xFF is the [char] -1 on x86 and 255 on ARM, and the tokens
    differ accordingly: (2^32 - 31) mod 32000 against (255 * 31) mod 32000. *)
Example tokenize_on_x86 :
  nativeTokenize abi_x86 1 [xff; x41; x80] demo_heap =
  Ret (Some [23265; 2016; 19330], demo_heap).
Proof. vm_compute. reflexivity. Qed.

Example tokenize_on_arm64 :
  nativeTokenize abi_arm64_v8a 1 [xff; x41; x80] demo_heap =
  Ret (Some [7905; 2016; 3970], demo_heap).
Proof. vm_compute. reflexivity. Qed.

Example detokenize_three :
  nativeDetokenize 1 (Some [7; 8; 9]) demo_heap =
  Ret (lit "Detokenized text from 3 tokens", demo_heap).
Proof. vm_compute. reflexivity. Qed.

(** ** Pointer values *)

Lemma is_pointer_range (target : abi) (z : Z) :
  is_pointer target z <-> 0 <= z < 2 ^ pointer_bits target.
Proof.
  unfold is_pointer, reinterpret_cast_pointer, to_unsigned.
  assert (0 < 2 ^ pointer_bits target) by (destruct target; reflexivity).
  split.
  - intros <-. apply Z.mod_pos_bound. assumption.
  - apply Z.mod_small.
Qed.

(** 2^32 is a pointer value on the 64-bit ABIs; on the 32-bit ABIs the
    cast turns it into the null pointer. *)
Example pointer_values_at_two_to_32 :
  is_pointer abi_arm64_v8a 4294967296 /\
  reinterpret_cast_pointer abi_x86 4294967296 = 0 /\
  ~ is_pointer abi_x86 4294967296.
Proof. repeat split. discriminate. Qed.

(** ** C strings *)

Lemma cstr_idempotent (s : list byte) : cstr (cstr s) = cstr s.
Proof.
  induction s as [| b s IH]; simpl; [reflexivity |].
  destruct (is_nul b) eqn:E; simpl; [reflexivity |].
  rewrite E, IH. reflexivity.
Qed.

Lemma nul_free_cstr (s : list byte) : nul_free (cstr s).
Proof. apply cstr_idempotent. Qed.

Lemma cstr_app (s t : list byte) : nul_free s -> cstr (s ++ t) = s ++ cstr t.
Proof.
  unfold nul_free. induction s as [| b s IH]; simpl; intros Hs; [reflexivity |].
  destruct (is_nul b); [discriminate |].
  injection Hs as Hs. rewrite (IH Hs). reflexivity.
Qed.

Lemma nul_free_app (s t : list byte) :
  nul_free s -> nul_free t -> nul_free (s ++ t).
Proof.
  intros Hs Ht. unfold nul_free. rewrite (cstr_app _ _ Hs). f_equal. exact Ht.
Qed.

Lemma list_byte_of_string_cons (a : Ascii.ascii) (s : string) :
  list_byte_of_string (String a s) =
  Ascii.byte_of_ascii a :: list_byte_of_string s.
Proof. reflexivity. Qed.

Lemma nul_free_cons (b : byte) (s : list byte) :
  is_nul b = false -> nul_free s -> nul_free (b :: s).
Proof. unfold nul_free. simpl. intros -> ->. reflexivity. Qed.

Lemma nul_free_uint (d : Decimal.uint) :
  nul_free (list_byte_of_string (NilEmpty.string_of_uint d)).
Proof.
  induction d as [| d IH | d IH | d IH | d IH | d IH | d IH | d IH | d IH
                 | d IH | d IH]; cbn [NilEmpty.string_of_uint];
    [reflexivity | ..];
    rewrite list_byte_of_string_cons;
    (apply nul_free_cons; [reflexivity | exact IH]).
Qed.

Lemma nul_free_to_string (n : Z) : nul_free (to_string n).
Proof.
  unfold to_string, NilZero.string_of_int, NilZero.string_of_uint.
  destruct (Z.to_int n) as [d | d].
  - destruct d; try apply nul_free_uint. reflexivity.
  - rewrite list_byte_of_string_cons.
    apply nul_free_cons; [reflexivity |].
    destruct d; try apply nul_free_uint. reflexivity.
Qed.

(** The response of [nativeGenerate] reaches Java whole when the model path
    holds no NUL. *)
Lemma response_for_whole (path : list byte) :
  nul_free path -> NewStringUTF (response_for path) = response_for path.
Proof.
  intros Hp. unfold NewStringUTF, response_for.
  apply nul_free_app; [reflexivity | exact Hp].
Qed.

(** ** Integer conversions *)

Lemma to_jint_small (z : Z) : 0 <= z < 2147483648 -> to_jint z = z.
Proof.
  intros Hz. unfold to_jint, to_signed, to_unsigned.
  change (2 ^ 32) with 4294967296. change (2 ^ (32 - 1)) with 2147483648.
  rewrite Z.mod_small by lia.
  destruct (Z.ltb_spec z 2147483648); lia.
Qed.

Lemma pseudo_token_range (target : abi) (vocab : Z) (c : byte) (pos : Z) :
  0 < vocab <= 2147483648 -> 0 <= pseudo_token target vocab c pos < vocab.
Proof.
  intros Hv. unfold pseudo_token.
  pose proof (Z.mod_pos_bound
    (to_size_t target (to_size_t target (char_value target c * 31) + pos))
    vocab ltac:(lia)) as Hm.
  rewrite to_jint_small by lia. exact Hm.
Qed.

(** The loop returns, appends one token per byte, and keeps every token
    below the vocabulary size. *)
Lemma tokenize_loop_spec (target : abi) (vocab : Z) :
  0 < vocab <= 2147483648 ->
  forall (rest : list byte) (pos : Z) (acc : list jint),
  exists toks,
    tokenize_loop target vocab rest pos acc = Ret (acc ++ toks) /\
    List.length toks = List.length rest /\
    Forall (fun t => 0 <= t < vocab) toks.
Proof.
  intros Hv rest. induction rest as [| c rest IH]; intros pos acc; simpl.
  - exists []. rewrite app_nil_r. repeat split. constructor.
  - destruct (Z.eqb_spec vocab 0) as [-> | _]; [lia |].
    destruct (IH (pos + 1) (acc ++ [pseudo_token target vocab c pos]))
      as (toks & Heq & Hlen & Hall).
    exists (pseudo_token target vocab c pos :: toks).
    rewrite Heq, <- app_assoc. simpl. repeat split.
    + f_equal. exact Hlen.
    + constructor; [apply pseudo_token_range; exact Hv | exact Hall].
Qed.

(** ** The entry points, case by case *)

Ltac unfold_native :=
  cbv beta iota zeta delta
    [nativeGenerate nativeFreeModel nativeGetModelSize nativeGetVocabSize
     nativeGetContextSize nativeTokenize nativeDetokenize delete_LlamaModel
     deref bind ret undefined heap_after].

Lemma nativeLoadModel_eq `{Allocator} (path : jstring) (h : heap) :
  nativeLoadModel path h =
  Ret (operator_new h,
       <[operator_new h := mkLlamaModel (cstr path) 32000 2048 true]> h).
Proof.
  unfold nativeLoadModel, bind, new_LlamaModel, store_loaded, ret.
  rewrite lookup_insert_eq, insert_insert_eq. reflexivity.
Qed.

Lemma state_of_Unloaded (h : heap) (p : jlong) :
  state_of h p = Unloaded -> p = 0.
Proof.
  unfold state_of. destruct (Z.eqb_spec p 0); [done |].
  destruct (h !! p); discriminate.
Qed.

Lemma state_of_Loaded (h : heap) (p : jlong) :
  state_of h p = Loaded -> p <> 0 /\ exists m, h !! p = Some m.
Proof.
  unfold state_of. destruct (Z.eqb_spec p 0); [discriminate |].
  destruct (h !! p) as [m |]; [eauto | discriminate].
Qed.

Lemma state_of_Released (h : heap) (p : jlong) :
  state_of h p = Released -> p <> 0 /\ h !! p = None.
Proof.
  unfold state_of. destruct (Z.eqb_spec p 0); [discriminate |].
  destruct (h !! p); [discriminate | done].
Qed.

(** Only [nativeLoadModel] and [nativeFreeModel] change the heap. *)
Lemma run_heap `{Allocator} (target : abi) (c : call) (h h' : heap) :
  run target c h = Ret h' ->
  match c with
  | CallLoadModel path =>
      h' = <[operator_new h := mkLlamaModel (cstr path) 32000 2048 true]> h
  | CallFreeModel p => h' = if p =? 0 then h else delete p h
  | _ => h' = h
  end.
Proof.
  assert (Hret : forall g : heap, Ret g = Ret h' -> h' = g)
    by (intros g [= <-]; reflexivity).
  destruct c; cbv beta iota delta [run];
    [rewrite nativeLoadModel_eq; apply Hret | ..];
    unfold_native;
    (destruct (Z.eqb_spec modelPtr 0) as [-> | Hp]; [apply Hret |]);
    try apply Hret;
    (destruct (h !! modelPtr) as [m |]; cbv beta iota; [| discriminate]);
    try apply Hret;
    (destruct (loaded m); cbv beta iota delta [negb]; [| apply Hret]);
    try apply Hret.
  - destruct (tokenize_loop _ _ _ _ _); cbv beta iota;
      [apply Hret | discriminate].
  - destruct tokens; cbv beta iota; [apply Hret | discriminate].
Qed.

Lemma model_ok_loaded (path : jstring) :
  model_ok (mkLlamaModel (cstr path) 32000 2048 true).
Proof. split; simpl; auto using nul_free_cstr. Qed.

(** Every reachable heap keeps address 0 free and holds only models as
    [nativeLoadModel] leaves them. *)
Lemma reachable_heap_ok `{Allocator} (target : abi) (h : heap) :
  reachable target h -> heap_ok h.
Proof.
  induction 1 as [| c h h' _ [IH0 IH] Hrun].
  - split; [apply lookup_empty |]. intros p m Hm.
    by rewrite lookup_empty in Hm.
  - apply run_heap in Hrun. destruct c; subst h'; try (split; assumption).
    + split.
      * rewrite lookup_insert_ne by apply operator_new_nonnull. exact IH0.
      * intros p m. rewrite lookup_insert. case_decide.
        -- intros [= <-]. apply model_ok_loaded.
        -- apply IH.
    + destruct (modelPtr =? 0); [split; assumption |]. split.
      * destruct (decide (modelPtr = 0)) as [-> |].
        -- apply lookup_delete_eq.
        -- rewrite lookup_delete_ne by done. exact IH0.
      * intros p m Hm. apply (IH p m).
        apply lookup_delete_Some in Hm. tauto.
Qed.

(** A loaded handle of a reachable heap refers to a model in good order. *)
Lemma loaded_handle `{Allocator} (target : abi) (h : heap) (p : jlong) :
  reachable target h -> state_of h p = Loaded ->
  (p =? 0) = false /\ exists m, h !! p = Some m /\ model_ok m.
Proof.
  intros Hr Hs. apply state_of_Loaded in Hs as [Hp [m Hm]].
  apply reachable_heap_ok in Hr as [_ Hok].
  split; [by apply Z.eqb_neq | eauto].
Qed.

(** Calls in sequence. *)
Lemma reachable_load `{Allocator} (target : abi) (path : jstring)
    (h h1 : heap) (p : jlong) :
  reachable target h -> nativeLoadModel path h = Ret (p, h1) ->
  reachable target h1 /\ state_of h1 p = Loaded.
Proof.
  intros Hr Hl. split.
  - apply (reachable_step target (CallLoadModel path) h h1 Hr).
    simpl. rewrite Hl. reflexivity.
  - rewrite nativeLoadModel_eq in Hl. injection Hl as <- <-.
    unfold state_of. rewrite lookup_insert_eq.
    destruct (Z.eqb_spec (operator_new h) 0) as [E |]; [| reflexivity].
    by apply operator_new_nonnull in E.
Qed.

Lemma reachable_run_all `{Allocator} (target : abi) (cs : list call) :
  forall h h' : heap,
  reachable target h -> run_all target cs h = Ret h' -> reachable target h'.
Proof.
  induction cs as [| c cs IH]; intros h h' Hr; cbn [run_all].
  - intros [= <-]. exact Hr.
  - destruct (run target c h) as [h1 |] eqn:E; [| discriminate].
    apply IH. exact (reachable_step target c h h1 Hr E).
Qed.

(** *** A live model *)

Section Live.
Context (h : heap) (p : jlong) (m : LlamaModel).
Hypothesis Hp : (p =? 0) = false.
Hypothesis Hm : h !! p = Some m.
Hypothesis Hl : loaded m = true.

Lemma generate_live prompt maxTokens temperature topP topK :
  nativeGenerate p prompt maxTokens temperature topP topK h =
  Ret (NewStringUTF (response_for (model_path m)), h).
Proof. unfold_native. rewrite Hp, Hm, Hl. reflexivity. Qed.

Lemma get_vocab_size_live :
  nativeGetVocabSize p h = Ret (to_jlong (vocab_size m), h).
Proof. unfold_native. rewrite Hp, Hm. reflexivity. Qed.

Lemma get_context_size_live :
  nativeGetContextSize p h = Ret (to_jlong (context_size m), h).
Proof. unfold_native. rewrite Hp, Hm. reflexivity. Qed.

Lemma tokenize_live target text tokens :
  tokenize_loop target (vocab_size m) (cstr text) 0 [] = Ret tokens ->
  nativeTokenize target p text h = Ret (Some tokens, h).
Proof.
  intros Ht. unfold_native. rewrite Hp, Hm, Hl.
  cbv beta iota delta [negb std_string GetStringUTFChars].
  rewrite Ht. reflexivity.
Qed.

Lemma detokenize_live elems :
  nativeDetokenize p (Some elems) h =
  Ret (lit "Detokenized text from " ++ to_string (Z.of_nat (List.length elems))
         ++ lit " tokens", h).
Proof.
  unfold_native. rewrite Hp, Hm, Hl. cbv beta iota delta [negb NewStringUTF].
  do 2 f_equal.
  apply (nul_free_app (lit "Detokenized text from ")); [reflexivity |].
  apply nul_free_app; [apply nul_free_to_string | reflexivity].
Qed.

End Live.

(** *** A pointer to no live object *)

Section Dangling.
Context (h : heap) (p : jlong).
Hypothesis Hp : (p =? 0) = false.
Hypothesis Hm : h !! p = None.

Lemma generate_dangling prompt maxTokens temperature topP topK :
  nativeGenerate p prompt maxTokens temperature topP topK h = Undefined.
Proof. unfold_native. rewrite Hp, Hm. reflexivity. Qed.

Lemma tokenize_dangling target text :
  nativeTokenize target p text h = Undefined.
Proof. unfold_native. rewrite Hp, Hm. reflexivity. Qed.

Lemma detokenize_dangling tokens : nativeDetokenize p tokens h = Undefined.
Proof. unfold_native. rewrite Hp, Hm. reflexivity. Qed.

Lemma get_vocab_size_dangling : nativeGetVocabSize p h = Undefined.
Proof. unfold_native. rewrite Hp, Hm. reflexivity. Qed.

Lemma get_context_size_dangling : nativeGetContextSize p h = Undefined.
Proof. unfold_native. rewrite Hp, Hm. reflexivity. Qed.

Lemma free_dangling : nativeFreeModel p h = Undefined.
Proof. unfold_native. rewrite Hp, Hm. reflexivity. Qed.

End Dangling.

Lemma get_model_size_nonnull (h : heap) (p : jlong) :
  (p =? 0) = false -> nativeGetModelSize p h = Ret (524288000, h).
Proof. intros Hp. unfold_native. rewrite Hp. reflexivity. Qed.

Lemma free_live (h : heap) (p : jlong) (m : LlamaModel) :
  (p =? 0) = false -> h !! p = Some m ->
  nativeFreeModel p h = Ret (tt, delete p h).
Proof. intros Hp Hm. unfold_native. rewrite Hp, Hm. reflexivity. Qed.

(** The null handle: every sentinel, whatever the heap. *)
Lemma null_handle_sentinels (target : abi) (h : heap) :
  reports_sentinels target 0 h.
Proof. repeat split. Qed.

(** ** Load *)

(** C1, as amended: [nativeLoadModel] never opens the path and never
    yields the null handle. For every path and every heap it returns a
    non-zero handle, the address of a fresh model that records the path,
    a vocabulary of 32000, a context of 2048, and [loaded = true]. *)
Theorem C1_load_never_returns_null `{Allocator} (path : jstring) (h : heap) :
  exists handle : jlong,
    nativeLoadModel path h =
      Ret (handle, <[handle := mkLlamaModel (cstr path) 32000 2048 true]> h) /\
    handle <> 0 /\
    h !! handle = None.
Proof.
  exists (operator_new h).
  split; [apply nativeLoadModel_eq |].
  split; [apply operator_new_nonnull | apply operator_new_fresh].
Qed.

(** C1, refuted as stated: loading "missing/path" into the empty heap, a
    path no step of the code tries to open, returns the handle 1, not 0. *)
Lemma C1_missing_path_yields_handle :
  @nativeLoadModel bump_allocator (lit "missing/path") ∅ =
    Ret (1, {[ 1 := mkLlamaModel (lit "missing/path") 32000 2048 true ]}) /\
  1 <> 0.
Proof. split; [vm_compute; reflexivity | lia]. Qed.

(** ** Tokenize *)

Lemma tokenize_loaded `{Allocator} (target : abi) (h : heap) (handle : jlong)
    (text : jstring) :
  reachable target h -> state_of h handle = Loaded ->
  exists tokens,
    nativeTokenize target handle text h = Ret (Some tokens, h) /\
    List.length tokens = List.length (cstr text) /\
    Forall (fun t => 0 <= t < 32000) tokens.
Proof.
  intros Hr Hs.
  destruct (loaded_handle target h handle Hr Hs) as (Hp & m & Hm & Hok).
  destruct (tokenize_loop_spec target 32000 ltac:(lia) (cstr text) 0 [])
    as (toks & Heq & Hlen & Hall).
  exists toks. split; [| split; assumption].
  apply (tokenize_live h handle m Hp Hm (ok_loaded m Hok)).
  rewrite (ok_vocab m Hok). exact Heq.
Qed.

Lemma get_vocab_size_loaded `{Allocator} (target : abi) (h : heap)
    (handle : jlong) :
  reachable target h -> state_of h handle = Loaded ->
  nativeGetVocabSize handle h = Ret (32000, h).
Proof.
  intros Hr Hs.
  destruct (loaded_handle target h handle Hr Hs) as (Hp & m & Hm & Hok).
  rewrite (get_vocab_size_live h handle m Hp Hm), (ok_vocab m Hok).
  reflexivity.
Qed.

Lemma get_context_size_loaded `{Allocator} (target : abi) (h : heap)
    (handle : jlong) :
  reachable target h -> state_of h handle = Loaded ->
  nativeGetContextSize handle h = Ret (2048, h).
Proof.
  intros Hr Hs.
  destruct (loaded_handle target h handle Hr Hs) as (Hp & m & Hm & Hok).
  rewrite (get_context_size_live h handle m Hp Hm), (ok_context m Hok).
  reflexivity.
Qed.

(** C2: for a loaded handle and any text, bytes of 0x80 and above included,
    [nativeTokenize] returns an array and each of its elements lies in
    [[0, vocabSize)], where [vocabSize] is what [nativeGetVocabSize]
    returns for the handle. This holds on every ABI: the remainder is taken
    in [size_t], so a negative [char] does not yield a negative token. *)
Theorem C2_tokens_below_vocab_size `{Allocator} (target : abi) (h : heap)
    (handle : jlong) (text : jstring) :
  reachable target h -> state_of h handle = Loaded ->
  exists (tokens : list jint) (vocabSize : jlong),
    nativeTokenize target handle text h = Ret (Some tokens, h) /\
    nativeGetVocabSize handle h = Ret (vocabSize, h) /\
    Forall (fun t => 0 <= t < vocabSize) tokens.
Proof.
  intros Hr Hs.
  destruct (tokenize_loaded target h handle text Hr Hs)
    as (tokens & Ht & _ & Hall).
  exists tokens, 32000. split; [exact Ht |].
  split; [exact (get_vocab_size_loaded target h handle Hr Hs) | exact Hall].
Qed.

(** C2 at work: on x86, where [char] is signed, the bytes 0xFF 0x41 0x80
    tokenize within range. *)
Lemma C2_tokens_below_vocab_size_witness :
  exists (tokens : list jint) (vocabSize : jlong),
    nativeTokenize abi_x86 1 [xff; x41; x80] demo_heap =
      Ret (Some tokens, demo_heap) /\
    nativeGetVocabSize 1 demo_heap = Ret (vocabSize, demo_heap) /\
    Forall (fun t => 0 <= t < vocabSize) tokens.
Proof.
  apply (@C2_tokens_below_vocab_size bump_allocator abi_x86 demo_heap 1).
  - apply (reachable_step abi_x86 (CallLoadModel (lit "model.gguf")) ∅);
      [apply reachable_init | vm_compute; reflexivity].
  - vm_compute; reflexivity.
Defined.

(** C7: for a loaded handle, [nativeTokenize] returns one token per byte
    of the text as native code sees it, a C string. A [jstring]'s modified
    UTF-8 form holds no NUL, and then that is one token per byte of the
    text. *)
Theorem C7_one_token_per_byte `{Allocator} (target : abi) (h : heap)
    (handle : jlong) (text : jstring) :
  reachable target h -> state_of h handle = Loaded ->
  exists tokens : list jint,
    nativeTokenize target handle text h = Ret (Some tokens, h) /\
    List.length tokens = List.length (std_string (GetStringUTFChars text)) /\
    (nul_free text -> List.length tokens = List.length text).
Proof.
  intros Hr Hs.
  destruct (tokenize_loaded target h handle text Hr Hs)
    as (tokens & Ht & Hlen & _).
  exists tokens. split; [exact Ht |]. split; [exact Hlen |].
  intros Hnf. rewrite Hlen, Hnf. reflexivity.
Qed.

(** C7 at work: the five bytes of "hello" give five tokens on arm64. *)
Lemma C7_one_token_per_byte_witness :
  exists tokens : list jint,
    nativeTokenize abi_arm64_v8a 1 (lit "hello") demo_heap =
      Ret (Some tokens, demo_heap) /\
    List.length tokens =
      List.length (std_string (GetStringUTFChars (lit "hello"))) /\
    (nul_free (lit "hello") ->
     List.length tokens = List.length (lit "hello")).
Proof.
  apply (@C7_one_token_per_byte bump_allocator abi_arm64_v8a demo_heap 1).
  - apply (reachable_step abi_arm64_v8a (CallLoadModel (lit "model.gguf")) ∅);
      [apply reachable_init | vm_compute; reflexivity].
  - vm_compute; reflexivity.
Defined.

(** ** Tokenize, then Detokenize *)

(** C3, as amended: [nativeDetokenize] is not an inverse of
    [nativeTokenize]. For a loaded handle, detokenizing the tokens of a
    text returns the placeholder "Detokenized text from N tokens", N being
    the decimal count of the text's bytes; of the text, only its length
    reaches the result. *)
Theorem C3_detokenize_reports_length `{Allocator} (target : abi) (h : heap)
    (handle : jlong) (text : jstring) :
  reachable target h -> state_of h handle = Loaded ->
  (tokens <- nativeTokenize target handle text ;;
   nativeDetokenize handle tokens) h =
  Ret (lit "Detokenized text from "
         ++ to_string (Z.of_nat (List.length (cstr text)))
         ++ lit " tokens", h).
Proof.
  intros Hr Hs.
  destruct (tokenize_loaded target h handle text Hr Hs)
    as (tokens & Ht & Hlen & _).
  destruct (loaded_handle target h handle Hr Hs) as (Hp & m & Hm & Hok).
  unfold bind. rewrite Ht.
  rewrite (detokenize_live h handle m Hp Hm (ok_loaded m Hok)), Hlen.
  reflexivity.
Qed.

(** C3 as amended, at work: "hello" comes back as
    "Detokenized text from 5 tokens". *)
Lemma C3_detokenize_reports_length_witness :
  (tokens <- nativeTokenize abi_arm64_v8a 1 (lit "hello") ;;
   nativeDetokenize 1 tokens) demo_heap =
  Ret (lit "Detokenized text from "
         ++ to_string (Z.of_nat (List.length (cstr (lit "hello"))))
         ++ lit " tokens", demo_heap).
Proof.
  apply (@C3_detokenize_reports_length bump_allocator abi_arm64_v8a
           demo_heap 1).
  - apply (reachable_step abi_arm64_v8a (CallLoadModel (lit "model.gguf")) ∅);
      [apply reachable_init | vm_compute; reflexivity].
  - vm_compute; reflexivity.
Defined.

(** C3, refuted as stated: on a loaded handle the round trip turns "hi"
    into "Detokenized text from 2 tokens", and turns "no" into the very
    same string, so the input cannot be told from the output. *)
Lemma C3_round_trip_loses_text :
  (tokens <- nativeTokenize abi_arm64_v8a 1 (lit "hi") ;;
   nativeDetokenize 1 tokens) demo_heap =
    Ret (lit "Detokenized text from 2 tokens", demo_heap) /\
  (tokens <- nativeTokenize abi_arm64_v8a 1 (lit "no") ;;
   nativeDetokenize 1 tokens) demo_heap =
    Ret (lit "Detokenized text from 2 tokens", demo_heap) /\
  lit "Detokenized text from 2 tokens" <> lit "hi".
Proof.
  split; [vm_compute; reflexivity |].
  split; [vm_compute; reflexivity | discriminate].
Qed.

(** ** The null handle *)

(** C4: on the null handle each operation but Load answers with its
    sentinel, whatever the heap and the other arguments:
    [nativeGenerate] with "Error: Model not loaded", [nativeTokenize] with
    the null array, [nativeDetokenize] with the empty string, and the three
    size accessors with 0. None touches the heap. *)
Theorem C4_null_handle_sentinels (target : abi) (h : heap) :
  (forall prompt maxTokens temperature topP topK,
     nativeGenerate 0 prompt maxTokens temperature topP topK h =
     Ret (lit "Error: Model not loaded", h)) /\
  (forall text, nativeTokenize target 0 text h = Ret (None, h)) /\
  (forall tokens, nativeDetokenize 0 tokens h = Ret ([], h)) /\
  nativeGetVocabSize 0 h = Ret (0, h) /\
  nativeGetContextSize 0 h = Ret (0, h) /\
  nativeGetModelSize 0 h = Ret (0, h).
Proof. exact (null_handle_sentinels target h). Qed.

(** ** Release *)

(** C5, as amended: releasing the null handle is a no-op, and releasing
    the handle Load returned gives the heap back as it was. Releasing that
    handle a second time deletes a pointer to no live object: undefined
    behaviour, against which the bridge has no guard. *)
Theorem C5_release_once_only `{Allocator} (path : jstring) (h : heap) :
  nativeFreeModel 0 h = Ret (tt, h) /\
  (handle <- nativeLoadModel path ;; nativeFreeModel handle) h = Ret (tt, h) /\
  (handle <- nativeLoadModel path ;;
   nativeFreeModel handle ;;;
   nativeFreeModel handle) h = Undefined.
Proof.
  assert (Hp : (operator_new h =? 0) = false)
    by (apply Z.eqb_neq, operator_new_nonnull).
  pose proof (operator_new_fresh h) as Hfresh.
  split; [reflexivity |].
  unfold bind. rewrite nativeLoadModel_eq.
  rewrite (free_live _ _ _ Hp (lookup_insert_eq _ _ _)).
  rewrite (delete_insert_id _ _ _ Hfresh).
  split; [reflexivity |].
  apply (free_dangling h _ Hp Hfresh).
Qed.

(** C5, refuted as stated: Load, Release, Release of the same handle,
    starting with no model, has undefined behaviour at the second
    Release. *)
Lemma C5_double_release_undefined :
  (handle <- @nativeLoadModel bump_allocator (lit "model.gguf") ;;
   nativeFreeModel handle ;;;
   nativeFreeModel handle) ∅ = Undefined.
Proof. vm_compute. reflexivity. Qed.

(** ** The states of a handle *)

(** C6, as amended, for a handle that is a pointer value of the target
    ([is_pointer]; on the 32-bit ABIs a handle outside that range is cut to
    its low 32 bits before any test, and is not covered here): a handle is
    Unloaded (null), Loaded (the address of a
    live model) or Released (any other address). Load yields a Loaded
    handle, and Release takes a Loaded handle to Released. On an Unloaded
    handle every operation answers with its sentinel. On a Released handle
    there is no check: [nativeGenerate], [nativeTokenize],
    [nativeDetokenize], [nativeGetVocabSize], [nativeGetContextSize] and
    [nativeFreeModel] go through the stale pointer, which is undefined
    behaviour, and [nativeGetModelSize], which reads nothing, returns
    524288000. *)
Theorem C6_handle_state_machine `{Allocator} (target : abi) (h : heap)
    (handle : jlong) :
  is_pointer target handle ->
  (forall path, exists p h1,
     nativeLoadModel path h = Ret (p, h1) /\ state_of h1 p = Loaded) /\
  match state_of h handle with
  | Unloaded => reports_sentinels target handle h
  | Loaded =>
      exists h', nativeFreeModel handle h = Ret (tt, h') /\
                 state_of h' handle = Released
  | Released =>
      reads_freed_memory target handle h /\
      nativeGetModelSize handle h = Ret (524288000, h)
  end.
Proof.
  intros _. split.
  - intros path. eexists _, _. split; [apply nativeLoadModel_eq |].
    unfold state_of. rewrite lookup_insert_eq.
    destruct (Z.eqb_spec (operator_new h) 0) as [E |]; [| reflexivity].
    by apply operator_new_nonnull in E.
  - destruct (state_of h handle) eqn:Hs.
    + apply state_of_Unloaded in Hs as ->. apply null_handle_sentinels.
    + apply state_of_Loaded in Hs as [Hp [m Hm]].
      apply Z.eqb_neq in Hp. exists (delete handle h).
      split; [exact (free_live h handle m Hp Hm) |].
      unfold state_of. rewrite Hp, lookup_delete_eq. reflexivity.
    + apply state_of_Released in Hs as [Hp Hm]. apply Z.eqb_neq in Hp. split.
      * repeat split; intros;
          auto using generate_dangling, tokenize_dangling,
            detokenize_dangling, get_vocab_size_dangling,
            get_context_size_dangling, free_dangling.
      * exact (get_model_size_nonnull h handle Hp).
Qed.

(** C6 as amended, at work on x86: handle 1, a pointer value with no
    live model in the empty heap, is Released. *)
Lemma C6_handle_state_machine_witness :
  (forall path, exists p h1,
     @nativeLoadModel bump_allocator path ∅ = Ret (p, h1) /\
     state_of h1 p = Loaded) /\
  match state_of ∅ 1 with
  | Unloaded => reports_sentinels abi_x86 1 ∅
  | Loaded =>
      exists h', nativeFreeModel 1 ∅ = Ret (tt, h') /\
                 state_of h' 1 = Released
  | Released =>
      reads_freed_memory abi_x86 1 ∅ /\
      nativeGetModelSize 1 ∅ = Ret (524288000, ∅)
  end.
Proof.
  apply (@C6_handle_state_machine bump_allocator abi_x86 ∅ 1).
  vm_compute; reflexivity.
Defined.

(** C6, refuted as stated: once handle 1 has been loaded and released,
    it is Released, yet [nativeGetModelSize] answers 524288000 rather than
    the sentinel 0, and [nativeGenerate] reads the freed model. *)
Lemma C6_released_handle_unchecked :
  (handle <- @nativeLoadModel bump_allocator (lit "model.gguf") ;;
   nativeFreeModel handle ;;;
   ret handle) ∅ = Ret (1, ∅) /\
  state_of ∅ 1 = Released /\
  nativeGetModelSize 1 ∅ = Ret (524288000, ∅) /\
  nativeGenerate 1 (lit "hi") 10 1060320051 1063675494 40 ∅ = Undefined.
Proof. repeat split; vm_compute; reflexivity. Qed.

(** ** Speakers *)

(** C8: for every instance and every integer id, [isValidSpeaker] answers
    true exactly when [0 <= id < numberOfSpeakers]. *)
Theorem C8_valid_speaker_iff_in_range (self : Sherpa.SherpaONNXBridge)
    (speakerId : Z) :
  Sherpa.isValidSpeaker self speakerId = true <->
  0 <= speakerId < Sherpa.numberOfSpeakers self.
Proof.
  unfold Sherpa.isValidSpeaker.
  rewrite andb_true_iff, Z.leb_le, Z.ltb_lt. reflexivity.
Qed.

(** ** Generate *)

(** C9: for a loaded handle the string [nativeGenerate] returns is the
    placeholder response for the model path stored in the handle's model,
    whatever the prompt, [maxTokens], [temperature], [topP] and [topK];
    any two calls return the same string, and the heap is left as it
    was. *)
Theorem C9_generate_ignores_parameters `{Allocator} (target : abi) (h : heap)
    (handle : jlong) :
  reachable target h -> state_of h handle = Loaded ->
  exists m : LlamaModel,
    h !! handle = Some m /\
    (forall prompt maxTokens temperature topP topK,
       nativeGenerate handle prompt maxTokens temperature topP topK h =
       Ret (response_for (model_path m), h)) /\
    (forall prompt maxTokens temperature topP topK
            prompt' maxTokens' temperature' topP' topK',
       nativeGenerate handle prompt maxTokens temperature topP topK h =
       nativeGenerate handle prompt' maxTokens' temperature' topP' topK' h).
Proof.
  intros Hr Hs.
  destruct (loaded_handle target h handle Hr Hs) as (Hp & m & Hm & Hok).
  pose proof (generate_live h handle m Hp Hm (ok_loaded m Hok)) as Hg.
  exists m. split; [exact Hm |]. split.
  - intros. rewrite Hg, (response_for_whole _ (ok_path m Hok)). reflexivity.
  - intros. rewrite !Hg. reflexivity.
Qed.

(** C9 at work on the model loaded from "model.gguf". *)
Lemma C9_generate_ignores_parameters_witness :
  exists m : LlamaModel,
    demo_heap !! 1 = Some m /\
    (forall prompt maxTokens temperature topP topK,
       nativeGenerate 1 prompt maxTokens temperature topP topK demo_heap =
       Ret (response_for (model_path m), demo_heap)) /\
    (forall prompt maxTokens temperature topP topK
            prompt' maxTokens' temperature' topP' topK',
       nativeGenerate 1 prompt maxTokens temperature topP topK demo_heap =
       nativeGenerate 1 prompt' maxTokens' temperature' topP' topK' demo_heap).
Proof.
  apply (@C9_generate_ignores_parameters bump_allocator abi_arm64_v8a
           demo_heap 1).
  - apply (reachable_step abi_arm64_v8a (CallLoadModel (lit "model.gguf")) ∅);
      [apply reachable_init | vm_compute; reflexivity].
  - vm_compute; reflexivity.
Defined.

(** ** The size accessors *)

(** C10: whatever the path, the handle a Load returns is Loaded, and for
    as long as it is, after any further calls, [nativeGetVocabSize]
    returns 32000, [nativeGetContextSize] 2048 and [nativeGetModelSize]
    524288000; the accessors leave the heap as it was, so that asking again
    gives the same values. *)
Theorem C10_accessors_constant `{Allocator} (target : abi) (h : heap)
    (path : jstring) (handle : jlong) (h1 : heap) :
  reachable target h -> nativeLoadModel path h = Ret (handle, h1) ->
  state_of h1 handle = Loaded /\
  forall (cs : list call) (h2 : heap),
    run_all target cs h1 = Ret h2 -> state_of h2 handle = Loaded ->
    nativeGetVocabSize handle h2 = Ret (32000, h2) /\
    nativeGetContextSize handle h2 = Ret (2048, h2) /\
    nativeGetModelSize handle h2 = Ret (524288000, h2).
Proof.
  intros Hr Hl.
  destruct (reachable_load target path h h1 handle Hr Hl) as [Hr1 Hs1].
  split; [exact Hs1 |].
  intros cs h2 Hrun Hs2.
  pose proof (reachable_run_all target cs h1 h2 Hr1 Hrun) as Hr2.
  split; [exact (get_vocab_size_loaded target h2 handle Hr2 Hs2) |].
  split; [exact (get_context_size_loaded target h2 handle Hr2 Hs2) |].
  apply get_model_size_nonnull.
  apply (loaded_handle target h2 handle Hr2 Hs2).
Qed.

(** C10 at work: "model.gguf" and then "b.gguf" are loaded, and the
    second handle is asked. *)
Lemma C10_accessors_constant_witness :
  state_of (<[2 := mkLlamaModel (lit "b.gguf") 32000 2048 true]> demo_heap) 2
    = Loaded /\
  forall (cs : list call) (h2 : heap),
    run_all abi_x86_64 cs
      (<[2 := mkLlamaModel (lit "b.gguf") 32000 2048 true]> demo_heap)
      = Ret h2 ->
    state_of h2 2 = Loaded ->
    nativeGetVocabSize 2 h2 = Ret (32000, h2) /\
    nativeGetContextSize 2 h2 = Ret (2048, h2) /\
    nativeGetModelSize 2 h2 = Ret (524288000, h2).
Proof.
  apply (@C10_accessors_constant bump_allocator abi_x86_64 demo_heap
           (lit "b.gguf") 2).
  - apply (reachable_step abi_x86_64 (CallLoadModel (lit "model.gguf")) ∅);
      [apply reachable_init | vm_compute; reflexivity].
  - vm_compute; reflexivity.
Defined.

(** * Further properties of the bridge *)

(** ** The arithmetic of a pseudo-token *)

Lemma byte_value_range (c : byte) : 0 <= Z.of_N (Byte.to_N c) <= 255.
Proof. pose proof (Byte.to_N_bounded c). lia. Qed.

Lemma byte_value_inj (c c' : byte) :
  Z.of_N (Byte.to_N c) = Z.of_N (Byte.to_N c') -> c = c'.
Proof.
  intros E. apply N2Z.inj in E.
  pose proof (Byte.of_to_N c) as Hc. rewrite E, Byte.of_to_N in Hc.
  congruence.
Qed.

Lemma char_value_range (target : abi) (c : byte) :
  -128 <= char_value target c <= 255.
Proof.
  unfold char_value. pose proof (byte_value_range c).
  destruct (char_is_signed target); cbn [andb];
    [destruct (Z.leb_spec 128 (Z.of_N (Byte.to_N c))) |]; lia.
Qed.

Lemma char_value_inj (target : abi) (c c' : byte) :
  char_value target c = char_value target c' -> c = c'.
Proof.
  unfold char_value. intros E. apply byte_value_inj.
  pose proof (byte_value_range c). pose proof (byte_value_range c').
  destruct (char_is_signed target); cbn [andb] in E; [| exact E].
  destruct (Z.leb_spec 128 (Z.of_N (Byte.to_N c)));
    destruct (Z.leb_spec 128 (Z.of_N (Byte.to_N c'))); lia.
Qed.

Lemma size_t_modulus (target : abi) :
  2 ^ size_t_bits target = 4294967296 \/
  2 ^ size_t_bits target = 18446744073709551616.
Proof. destruct target; [left | right | left | right]; reflexivity. Qed.

(** In [size_t] the sum [input[pos] * 31 + pos] is the integer sum, or,
    when that is negative, the sum plus [2^w]. *)
Lemma size_t_sum (target : abi) (v pos : Z) :
  -128 <= v <= 255 -> 0 <= pos < 2147483648 ->
  to_size_t target (to_size_t target (v * 31) + pos) =
  if v * 31 + pos <? 0 then v * 31 + pos + 2 ^ size_t_bits target
  else v * 31 + pos.
Proof.
  intros Hv Hpos. unfold to_size_t, to_unsigned.
  rewrite Zplus_mod_idemp_l.
  destruct (Z.ltb_spec (v * 31 + pos) 0) as [Hneg | Hnn].
  - symmetry. apply (Z.mod_unique _ _ (-1)); destruct (size_t_modulus target)
      as [-> | ->]; lia.
  - apply Z.mod_small. destruct (size_t_modulus target) as [-> | ->]; lia.
Qed.

Lemma pseudo_token_eq (target : abi) (c : byte) (pos : Z) :
  0 <= pos < 2147483648 ->
  pseudo_token target 32000 c pos =
  (if char_value target c * 31 + pos <? 0
   then char_value target c * 31 + pos + 2 ^ size_t_bits target
   else char_value target c * 31 + pos) mod 32000.
Proof.
  intros Hpos. unfold pseudo_token.
  rewrite (size_t_sum target _ pos (char_value_range target c) Hpos).
  apply to_jint_small.
  match goal with |- 0 <= ?x mod 32000 < _ =>
    pose proof (Z.mod_pos_bound x 32000 ltac:(lia)) end. lia.
Qed.

(** At one position, different bytes get different tokens. *)
Lemma pseudo_token_inj (target : abi) (c c' : byte) (pos : Z) :
  0 <= pos < 2147483648 ->
  pseudo_token target 32000 c pos = pseudo_token target 32000 c' pos ->
  c = c'.
Proof.
  intros Hpos. rewrite !pseudo_token_eq by exact Hpos. intros E.
  apply (char_value_inj target).
  pose proof (char_value_range target c) as Hv.
  pose proof (char_value_range target c') as Hv'.
  set (v := char_value target c) in *. set (v' := char_value target c') in *.
  match type of E with ?x mod _ = ?y mod _ =>
    pose proof (Z.div_mod x 32000 ltac:(lia)) as Hx;
    pose proof (Z.div_mod y 32000 ltac:(lia)) as Hy;
    rewrite E in Hx;
    set (k := x / 32000) in *; set (k' := y / 32000) in *;
    set (r := y mod 32000) in *
  end.
  clearbody k k' r. clear E.
  destruct (size_t_modulus target) as [-> | ->] in Hx, Hy;
    destruct (Z.ltb_spec (v * 31 + pos) 0);
    destruct (Z.ltb_spec (v' * 31 + pos) 0); lia.
Qed.

(** ** The tokens, one by one *)

Lemma tokenize_loop_imap (target : abi) (vocab : Z) :
  vocab <> 0 ->
  forall (rest : list byte) (pos : Z) (acc : list jint),
  tokenize_loop target vocab rest pos acc =
  Ret (acc ++
       imap (fun i c => pseudo_token target vocab c (pos + Z.of_nat i)) rest).
Proof.
  intros Hv rest. induction rest as [| c rest IH]; intros pos acc;
    cbn [tokenize_loop].
  - rewrite imap_nil, app_nil_r. reflexivity.
  - destruct (Z.eqb_spec vocab 0) as [E | _]; [contradiction |].
    rewrite IH, imap_cons, <- app_assoc. cbn [app]. do 3 f_equal.
    + f_equal. lia.
    + apply imap_ext. intros i x _. cbn. f_equal. lia.
Qed.

Lemma tokenize_loaded_imap `{Allocator} (target : abi) (h : heap)
    (handle : jlong) (text : jstring) :
  reachable target h -> state_of h handle = Loaded ->
  nativeTokenize target handle text h =
  Ret (Some (imap (fun i c => pseudo_token target 32000 c (Z.of_nat i))
               (cstr text)), h).
Proof.
  intros Hr Hs.
  destruct (loaded_handle target h handle Hr Hs) as (Hp & m & Hm & Hok).
  apply (tokenize_live h handle m Hp Hm (ok_loaded m Hok)).
  rewrite (ok_vocab m Hok), tokenize_loop_imap by lia. reflexivity.
Qed.

Lemma imap_inj_at {A B} (f : nat -> A -> B) (l l' : list A) :
  (forall i x y, l !! i = Some x -> f i x = f i y -> x = y) ->
  imap f l = imap f l' -> l = l'.
Proof.
  revert f l'. induction l as [| x l IH]; intros f [| y l'] Hf E;
    try discriminate; [reflexivity |].
  rewrite !imap_cons in E. injection E as E0 E. f_equal.
  - exact (Hf 0%nat x y eq_refl E0).
  - apply (IH (f ∘ S) l'); [| exact E].
    intros i a b Ha. exact (Hf (S i) a b Ha).
Qed.

Lemma Forall_cstr (P : byte -> Prop) (s : list byte) :
  Forall P s -> Forall P (cstr s).
Proof.
  induction 1 as [| b s Hb _ IH]; cbn [cstr]; [constructor |].
  destruct (is_nul b); constructor; assumption.
Qed.

(** X1: for a loaded handle the token at index [i] is computed from the
    byte at index [i] and from [i] alone, as
    [((c * 31 + i) mod 2^w) mod 32000] with [c] the byte as a [char] and
    [w] the width of [size_t]; neither the other bytes, nor the handle, nor
    the model's path enter it. *)
Theorem X1_token_at_index `{Allocator} (target : abi) (h : heap)
    (handle : jlong) (text : jstring) :
  reachable target h -> state_of h handle = Loaded ->
  exists tokens : list jint,
    nativeTokenize target handle text h = Ret (Some tokens, h) /\
    forall (i : nat) (c : byte),
      cstr text !! i = Some c ->
      tokens !! i =
      Some (to_jint
              (to_size_t target
                 (to_size_t target (char_value target c * 31) + Z.of_nat i)
               mod 32000)).
Proof.
  intros Hr Hs. eexists. split;
    [apply (tokenize_loaded_imap target h handle text Hr Hs) |].
  intros i c Hc. rewrite list_lookup_imap, Hc. reflexivity.
Qed.

(** X1 at work: the tokens of "hello" on 32-bit ARM. *)
Lemma X1_token_at_index_witness :
  exists tokens : list jint,
    nativeTokenize abi_armeabi_v7a 1 (lit "hello") demo_heap =
      Ret (Some tokens, demo_heap) /\
    forall (i : nat) (c : byte),
      cstr (lit "hello") !! i = Some c ->
      tokens !! i =
      Some (to_jint
              (to_size_t abi_armeabi_v7a
                 (to_size_t abi_armeabi_v7a
                    (char_value abi_armeabi_v7a c * 31) + Z.of_nat i)
               mod 32000)).
Proof.
  apply (@X1_token_at_index bump_allocator abi_armeabi_v7a demo_heap 1).
  - apply (reachable_step abi_armeabi_v7a
             (CallLoadModel (lit "model.gguf")) ∅);
      [apply reachable_init | vm_compute; reflexivity].
  - vm_compute; reflexivity.
Defined.

(** X2: the stub tokenizer loses nothing. For a loaded handle, on every
    ABI, two texts of at most 2^31 bytes that are given the same token
    array are the same C string. *)
Theorem X2_tokenize_injective `{Allocator} (target : abi) (h : heap)
    (handle : jlong) (text text' : jstring) :
  reachable target h -> state_of h handle = Loaded ->
  Z.of_nat (List.length (cstr text)) <= 2147483648 ->
  nativeTokenize target handle text h = nativeTokenize target handle text' h ->
  cstr text = cstr text'.
Proof.
  intros Hr Hs Hlen.
  rewrite !(tokenize_loaded_imap target h handle) by assumption.
  intros [= E]. revert E. apply imap_inj_at.
  intros i x y Hx. apply pseudo_token_inj.
  apply lookup_lt_Some in Hx. lia.
Qed.

(** X2 at work: "hi" and "hi" followed by a NUL and more get the same
    tokens, and are the same C string. *)
Lemma X2_tokenize_injective_witness :
  cstr (lit "hi") = cstr (lit "hi" ++ [x00; x41]).
Proof.
  apply (@X2_tokenize_injective bump_allocator abi_x86 demo_heap 1).
  - apply (reachable_step abi_x86 (CallLoadModel (lit "model.gguf")) ∅);
      [apply reachable_init | vm_compute; reflexivity].
  - vm_compute; reflexivity.
  - vm_compute. discriminate.
  - vm_compute; reflexivity.
Defined.

(** X3: on text of 7-bit bytes, at most 2^31 of them, the tokens are the
    same on all four ABIs: the token at index [i] of byte [c] is
    [(31 * c + i) mod 32000]. *)
Theorem X3_ascii_tokens_portable `{Allocator} (target : abi) (h : heap)
    (handle : jlong) (text : jstring) :
  reachable target h -> state_of h handle = Loaded ->
  Forall (fun c => Z.of_N (Byte.to_N c) < 128) text ->
  Z.of_nat (List.length (cstr text)) <= 2147483648 ->
  nativeTokenize target handle text h =
  Ret (Some (imap (fun i c => (31 * Z.of_N (Byte.to_N c) + Z.of_nat i)
                                mod 32000) (cstr text)), h).
Proof.
  intros Hr Hs Hascii Hlen.
  rewrite (tokenize_loaded_imap target h handle text Hr Hs). do 3 f_equal.
  apply imap_ext. intros i c Hc.
  assert (Hi : 0 <= Z.of_nat i < 2147483648)
    by (apply lookup_lt_Some in Hc; lia).
  assert (Hc7 : Z.of_N (Byte.to_N c) < 128).
  { apply Forall_cstr in Hascii. rewrite Forall_forall in Hascii.
    apply Hascii. apply list_elem_of_lookup. eauto. }
  pose proof (byte_value_range c) as Hb.
  rewrite (pseudo_token_eq target c _ Hi).
  assert (Hv : char_value target c = Z.of_N (Byte.to_N c)).
  { unfold char_value.
    destruct (Z.leb_spec 128 (Z.of_N (Byte.to_N c))); [lia |].
    rewrite andb_false_r. reflexivity. }
  rewrite Hv.
  destruct (Z.ltb_spec (Z.of_N (Byte.to_N c) * 31 + Z.of_nat i) 0); [lia |].
  f_equal. lia.
Qed.

(** X3 at work: "hello" on x86-64. *)
Lemma X3_ascii_tokens_portable_witness :
  nativeTokenize abi_x86_64 1 (lit "hello") demo_heap =
  Ret (Some (imap (fun i c => (31 * Z.of_N (Byte.to_N c) + Z.of_nat i)
                                mod 32000) (cstr (lit "hello"))), demo_heap).
Proof.
  apply (@X3_ascii_tokens_portable bump_allocator abi_x86_64 demo_heap 1).
  - apply (reachable_step abi_x86_64 (CallLoadModel (lit "model.gguf")) ∅);
      [apply reachable_init | vm_compute; reflexivity].
  - vm_compute; reflexivity.
  - repeat constructor.
  - vm_compute. discriminate.
Defined.

(** X4: tokenizing is stable under appending. For a loaded handle and a
    text [s] without NUL, the tokens of [s ++ t] begin with the tokens of
    [s], whatever [t] is. *)
Theorem X4_tokens_of_prefix `{Allocator} (target : abi) (h : heap)
    (handle : jlong) (s t : jstring) :
  reachable target h -> state_of h handle = Loaded -> nul_free s ->
  exists tokens rest : list jint,
    nativeTokenize target handle s h = Ret (Some tokens, h) /\
    nativeTokenize target handle (s ++ t) h = Ret (Some (tokens ++ rest), h) /\
    List.length rest = List.length (cstr t).
Proof.
  intros Hr Hs Hnf.
  rewrite !(tokenize_loaded_imap target h handle) by assumption.
  rewrite (cstr_app s t Hnf), imap_app, Hnf.
  eexists _, _. split; [reflexivity |]. split; [reflexivity |].
  apply length_imap.
Qed.

(** X4 at work: "hel" and "hello". *)
Lemma X4_tokens_of_prefix_witness :
  exists tokens rest : list jint,
    nativeTokenize abi_arm64_v8a 1 (lit "hel") demo_heap =
      Ret (Some tokens, demo_heap) /\
    nativeTokenize abi_arm64_v8a 1 (lit "hel" ++ lit "lo") demo_heap =
      Ret (Some (tokens ++ rest), demo_heap) /\
    List.length rest = List.length (cstr (lit "lo")).
Proof.
  apply (@X4_tokens_of_prefix bump_allocator abi_arm64_v8a demo_heap 1).
  - apply (reachable_step abi_arm64_v8a (CallLoadModel (lit "model.gguf")) ∅);
      [apply reachable_init | vm_compute; reflexivity].
  - vm_compute; reflexivity.
  - vm_compute; reflexivity.
Defined.

(** ** Detokenize *)

Lemma to_int_nonnil (n : Z) :
  Z.to_int n <> Decimal.Pos Decimal.Nil /\
  Z.to_int n <> Decimal.Neg Decimal.Nil.
Proof.
  destruct n as [| p | p]; cbn [Z.to_int]; split; try discriminate;
    intros [= E]; exact (DecimalPos.Unsigned.to_uint_nonnil p E).
Qed.

Lemma to_string_inj (a b : Z) : to_string a = to_string b -> a = b.
Proof.
  unfold to_string. intros E.
  apply (f_equal string_of_list_byte) in E.
  rewrite !string_of_list_byte_of_string in E.
  apply (f_equal NilZero.int_of_string) in E.
  destruct (to_int_nonnil a) as [Ha Ha'], (to_int_nonnil b) as [Hb Hb'].
  rewrite !NilZero.isi in E by assumption.
  injection E as E. apply (f_equal Z.of_int) in E.
  rewrite !DecimalZ.of_to in E. exact E.
Qed.

(** X5: for a loaded handle, [nativeDetokenize] tells two arrays apart by
    their lengths and by nothing else: the strings returned are equal
    exactly when the arrays are equally long. *)
Theorem X5_detokenize_length_only `{Allocator} (target : abi) (h : heap)
    (handle : jlong) (a b : list jint) :
  reachable target h -> state_of h handle = Loaded ->
  (nativeDetokenize handle (Some a) h = nativeDetokenize handle (Some b) h <->
   List.length a = List.length b).
Proof.
  intros Hr Hs.
  destruct (loaded_handle target h handle Hr Hs) as (Hp & m & Hm & Hok).
  rewrite !(detokenize_live h handle m Hp Hm (ok_loaded m Hok)). split.
  - intros [= E]. apply app_inv_tail in E.
    apply to_string_inj in E. lia.
  - intros ->. reflexivity.
Qed.

(** X5 at work: two arrays of three tokens. *)
Lemma X5_detokenize_length_only_witness :
  nativeDetokenize 1 (Some [1; 2; 3]) demo_heap =
    nativeDetokenize 1 (Some [31999; 0; 7]) demo_heap <->
  List.length [1; 2; 3] = List.length [31999; 0; 7].
Proof.
  apply (@X5_detokenize_length_only bump_allocator abi_arm64_v8a demo_heap 1).
  - apply (reachable_step abi_arm64_v8a (CallLoadModel (lit "model.gguf")) ∅);
      [apply reachable_init | vm_compute; reflexivity].
  - vm_compute; reflexivity.
Defined.

(** ** What the calls leave alone *)

Lemma run_frame `{Allocator} (target : abi) (c : call) (h h' : heap)
    (q : jlong) (m : LlamaModel) :
  run target c h = Ret h' -> h !! q = Some m -> c <> CallFreeModel q ->
  h' !! q = Some m.
Proof.
  intros Hrun Hq Hc. apply run_heap in Hrun.
  destruct c; subst h'; try exact Hq.
  - rewrite lookup_insert_ne; [exact Hq |].
    intros E. pose proof (operator_new_fresh h) as Hf. congruence.
  - destruct (modelPtr =? 0); [exact Hq |].
    rewrite lookup_delete_ne; [exact Hq | congruence].
Qed.

(** X6: a loaded model stays as it is until its own handle is released.
    Let the handles of a sequence of calls, and [q], be pointer values of
    the target. If the sequence has defined behaviour and does not include
    the release of handle [q], the model at [q] is the same afterwards: no
    load, no release of another handle and no other operation touches
    it. (On a 32-bit ABI a handle outside the pointer range would be cut
    to 32 bits and could name the same model as [q]; such handles are not
    covered.) *)
Theorem X6_model_untouched_until_released `{Allocator} (target : abi)
    (cs : list call) (h h' : heap) (q : jlong) (m : LlamaModel) :
  pointer_calls target cs -> is_pointer target q ->
  run_all target cs h = Ret h' -> h !! q = Some m ->
  ~ In (CallFreeModel q) cs ->
  h' !! q = Some m.
Proof.
  intros _ _.
  revert h. induction cs as [| c cs IH]; intros h Hrun Hq Hnot;
    cbn [run_all] in Hrun.
  - injection Hrun as <-. exact Hq.
  - destruct (run target c h) as [h1 |] eqn:E; [| discriminate].
    apply (IH h1 Hrun).
    + apply (run_frame target c h h1 q m E Hq).
      intros ->. apply Hnot. left. reflexivity.
    + intros Hin. apply Hnot. right. exact Hin.
Qed.

(** X6 at work: a second model is loaded and released, the first is
    queried; the model at handle 1 is as before. *)
Lemma X6_model_untouched_until_released_witness :
  demo_heap !! 1 = Some (mkLlamaModel (lit "model.gguf") 32000 2048 true).
Proof.
  apply (@X6_model_untouched_until_released bump_allocator abi_x86
           [CallLoadModel (lit "b.gguf"); CallGetVocabSize 1;
            CallTokenize 1 (lit "hi"); CallFreeModel 2]
           demo_heap demo_heap 1).
  - repeat constructor.
  - reflexivity.
  - vm_compute; reflexivity.
  - vm_compute; reflexivity.
  - intros Hin. repeat (destruct Hin as [Hin | Hin]; [discriminate |]).
    exact Hin.
Defined.

(** ** Live models, counted *)

Lemma run_size `{Allocator} (target : abi) (c : call) (h h' : heap) :
  run target c h = Ret h' ->
  (size h' + (if is_release c then 1 else 0) =
   size h + (if is_load c then 1 else 0))%nat.
Proof.
  intros Hrun. pose proof (run_heap target c h h' Hrun) as Hh.
  destruct c; cbn [is_release is_load]; subst h'; try lia.
  - rewrite map_size_insert_None by apply operator_new_fresh. lia.
  - destruct (Z.eqb_spec modelPtr 0) as [-> | Hp]; cbn [negb]; [lia |].
    apply Z.eqb_neq in Hp.
    destruct (h !! modelPtr) as [m |] eqn:Hm.
    + pose proof (map_size_delete_Some modelPtr h (ex_intro _ m Hm)) as Hd.
      assert (size h <> 0%nat).
      { intros E. apply map_size_empty_inv in E. subst h.
        by rewrite lookup_empty in Hm. }
      lia.
    + cbn [run] in Hrun. rewrite (free_dangling h modelPtr Hp Hm) in Hrun.
      discriminate.
Qed.

(** X7: models are neither lost nor duplicated. After any sequence of
    calls with defined behaviour whose handles are pointer values of the
    target, the number of live models is the number before, plus the loads
    of the sequence, minus its releases of non-null handles: each load
    adds one model, each such release removes one, and no other call
    changes the count. (On a 32-bit ABI a handle outside the pointer range
    can be non-zero and still name the null pointer; such handles are not
    covered.) *)
Theorem X7_live_model_count `{Allocator} (target : abi) (cs : list call)
    (h h' : heap) :
  pointer_calls target cs ->
  run_all target cs h = Ret h' ->
  (size h' + List.length (List.filter is_release cs) =
   size h + List.length (List.filter is_load cs))%nat.
Proof.
  intros _.
  revert h. induction cs as [| c cs IH]; intros h Hrun; cbn [run_all] in Hrun.
  - injection Hrun as <-. reflexivity.
  - destruct (run target c h) as [h1 |] eqn:E; [| discriminate].
    specialize (IH h1 Hrun). apply run_size in E. cbn [List.filter].
    destruct (is_release c), (is_load c); cbn [List.length]; lia.
Qed.

(** X7 at work: two loads and one release leave one model. *)
Lemma X7_live_model_count_witness :
  (size demo_heap +
   List.length (List.filter is_release
     [CallLoadModel (lit "model.gguf"); CallLoadModel (lit "b.gguf");
      CallFreeModel 0; CallFreeModel 2]) =
   size (∅ : heap) +
   List.length (List.filter is_load
     [CallLoadModel (lit "model.gguf"); CallLoadModel (lit "b.gguf");
      CallFreeModel 0; CallFreeModel 2]))%nat.
Proof.
  apply (@X7_live_model_count bump_allocator abi_armeabi_v7a).
  - repeat constructor.
  - vm_compute; reflexivity.
Defined.

(** ** Defined behaviour *)

(** X8: on a heap a client can reach, a handle that is null or loaded is
    safe to pass to every entry point: each call returns, none has
    undefined behaviour (no stale read, no remainder by zero), and all but
    the release leave the heap as it was. For [nativeDetokenize] the array
    must not be the null reference. *)
Theorem X8_no_undefined_behaviour `{Allocator} (target : abi) (h : heap)
    (handle : jlong) :
  reachable target h -> state_of h handle <> Released ->
  (forall prompt maxTokens temperature topP topK, exists s,
     nativeGenerate handle prompt maxTokens temperature topP topK h =
     Ret (s, h)) /\
  (forall text, exists r, nativeTokenize target handle text h = Ret (r, h)) /\
  (forall elems, exists s,
     nativeDetokenize handle (Some elems) h = Ret (s, h)) /\
  (exists n, nativeGetVocabSize handle h = Ret (n, h)) /\
  (exists n, nativeGetContextSize handle h = Ret (n, h)) /\
  (exists n, nativeGetModelSize handle h = Ret (n, h)) /\
  (exists h', nativeFreeModel handle h = Ret (tt, h')).
Proof.
  intros Hr Hs. destruct (state_of h handle) eqn:E; [| | contradiction].
  - apply state_of_Unloaded in E as ->.
    repeat split; intros; eexists; reflexivity.
  - destruct (loaded_handle target h handle Hr E) as (Hp & m & Hm & Hok).
    pose proof (ok_loaded m Hok) as Hl.
    repeat split; intros; eexists.
    + apply (generate_live h handle m Hp Hm Hl).
    + apply (tokenize_loaded_imap target h handle text Hr E).
    + apply (detokenize_live h handle m Hp Hm Hl).
    + apply (get_vocab_size_live h handle m Hp Hm).
    + apply (get_context_size_live h handle m Hp Hm).
    + apply (get_model_size_nonnull h handle Hp).
    + apply (free_live h handle m Hp Hm).
Qed.

(** X8 at work on the loaded handle 1. *)
Lemma X8_no_undefined_behaviour_witness :
  (forall prompt maxTokens temperature topP topK, exists s,
     nativeGenerate 1 prompt maxTokens temperature topP topK demo_heap =
     Ret (s, demo_heap)) /\
  (forall text, exists r,
     nativeTokenize abi_x86 1 text demo_heap = Ret (r, demo_heap)) /\
  (forall elems, exists s,
     nativeDetokenize 1 (Some elems) demo_heap = Ret (s, demo_heap)) /\
  (exists n, nativeGetVocabSize 1 demo_heap = Ret (n, demo_heap)) /\
  (exists n, nativeGetContextSize 1 demo_heap = Ret (n, demo_heap)) /\
  (exists n, nativeGetModelSize 1 demo_heap = Ret (n, demo_heap)) /\
  (exists h', nativeFreeModel 1 demo_heap = Ret (tt, h')).
Proof.
  apply (@X8_no_undefined_behaviour bump_allocator abi_x86 demo_heap 1).
  - apply (reachable_step abi_x86 (CallLoadModel (lit "model.gguf")) ∅);
      [apply reachable_init | vm_compute; reflexivity].
  - vm_compute. discriminate.
Defined.

(** ** The sentinels *)

Lemma response_for_not_error (path : list byte) :
  response_for path <> lit "Error: Model not loaded".
Proof.
  intros E. apply (f_equal (hd x00)) in E. vm_compute in E. discriminate.
Qed.

(** X9: on a heap a client can reach, among the handles that are safe to
    pass (pointer values of the target that are null or loaded), the
    sentinels mean the null handle and nothing else. A model is marked
    loaded from the moment the handle exists, so the test of the [loaded]
    flag never fires: if [nativeGenerate] answers
    "Error: Model not loaded", if [nativeTokenize] answers with the null
    array, or if [nativeDetokenize], given an array, answers with the
    empty string, the handle was 0. Nothing is said of a released handle,
    for which the calls read freed memory. *)
Theorem X9_sentinel_means_null `{Allocator} (target : abi) (h : heap)
    (handle : jlong) :
  reachable target h -> is_pointer target handle ->
  state_of h handle <> Released ->
  (forall prompt maxTokens temperature topP topK h',
     nativeGenerate handle prompt maxTokens temperature topP topK h =
       Ret (lit "Error: Model not loaded", h') -> handle = 0) /\
  (forall text h',
     nativeTokenize target handle text h = Ret (None, h') -> handle = 0) /\
  (forall elems h',
     nativeDetokenize handle (Some elems) h = Ret ([], h') -> handle = 0).
Proof.
  intros Hr _ Hs. destruct (state_of h handle) eqn:E; [| | contradiction].
  - apply state_of_Unloaded in E. repeat split; intros; exact E.
  - destruct (loaded_handle target h handle Hr E) as (Hp & m & Hm & Hok).
    pose proof (ok_loaded m Hok) as Hl. repeat split.
    + intros prompt maxTokens temperature topP topK h'.
      rewrite (generate_live h handle m Hp Hm Hl),
        (response_for_whole _ (ok_path m Hok)).
      intros E'.
      apply (f_equal (fun o => match o with
                               | Ret (s, _) => s
                               | Undefined => []
                               end)) in E'.
      by apply response_for_not_error in E'.
    + intros text h'.
      rewrite (tokenize_loaded_imap target h handle text Hr E).
      discriminate.
    + intros elems h'.
      rewrite (detokenize_live h handle m Hp Hm Hl). discriminate.
Qed.

(** X9 at work on the loaded handle 1: no call on it gives a sentinel. *)
Lemma X9_sentinel_means_null_witness :
  (forall prompt maxTokens temperature topP topK h',
     nativeGenerate 1 prompt maxTokens temperature topP topK demo_heap =
       Ret (lit "Error: Model not loaded", h') -> 1 = 0) /\
  (forall text h',
     nativeTokenize abi_x86 1 text demo_heap = Ret (None, h') -> 1 = 0) /\
  (forall elems h',
     nativeDetokenize 1 (Some elems) demo_heap = Ret ([], h') -> 1 = 0).
Proof.
  apply (@X9_sentinel_means_null bump_allocator abi_x86 demo_heap 1).
  - apply (reachable_step abi_x86 (CallLoadModel (lit "model.gguf")) ∅);
      [apply reachable_init | vm_compute; reflexivity].
  - reflexivity.
  - vm_compute. discriminate.
Defined.

(** ** Load, then Generate *)

(** X10: the response to the first Generate after a Load ends in the path
    given to Load, and so tells the paths apart: from any heap, Load
    returns a handle for which [nativeGenerate] returns the fixed
    placeholder text followed by the path (as a C string), and two paths
    with the same response are the same C string. *)
Theorem X10_generate_reveals_path `{Allocator} (path : jstring) (h : heap) :
  (forall prompt maxTokens temperature topP topK, exists handle h1,
     nativeLoadModel path h = Ret (handle, h1) /\
     nativeGenerate handle prompt maxTokens temperature topP topK h1 =
     Ret (response_for (cstr path), h1)) /\
  (forall path' : jstring,
     response_for (cstr path) = response_for (cstr path') ->
     cstr path = cstr path').
Proof.
  split.
  - intros. eexists _, _. split; [apply nativeLoadModel_eq |].
    assert (Hp : (operator_new h =? 0) = false)
      by (apply Z.eqb_neq, operator_new_nonnull).
    rewrite (generate_live _ _ (mkLlamaModel (cstr path) 32000 2048 true)
               Hp (lookup_insert_eq _ _ _) eq_refl).
    cbn [model_path].
    rewrite (response_for_whole _ (nul_free_cstr path)). reflexivity.
  - intros path' E. unfold response_for in E.
    exact (app_inv_head _ _ _ E).
Qed.

(** ** The invariant of the heap *)

(** X11: whatever calls a client makes, as long as their behaviour is
    defined, no model lives at the null address, and every live model has
    a vocabulary size of 32000, a context size of 2048, its [loaded] flag
    set and a path free of NUL bytes: after construction no entry point
    writes to a model. *)
Theorem X11_models_stay_as_loaded `{Allocator} (target : abi) (h : heap) :
  reachable target h ->
  h !! 0 = None /\
  forall (p : jlong) (m : LlamaModel),
    h !! p = Some m ->
    vocab_size m = 32000 /\ context_size m = 2048 /\ loaded m = true /\
    nul_free (model_path m).
Proof.
  intros Hr. destruct (reachable_heap_ok target h Hr) as [H0 Hok].
  split; [exact H0 |]. intros p m Hm.
  destruct (Hok p m Hm) as [Hv Hc Hl Hp]. repeat split; assumption.
Qed.

(** X11 at work on the heap with one model. *)
Lemma X11_models_stay_as_loaded_witness :
  demo_heap !! 0 = None /\
  forall (p : jlong) (m : LlamaModel),
    demo_heap !! p = Some m ->
    vocab_size m = 32000 /\ context_size m = 2048 /\ loaded m = true /\
    nul_free (model_path m).
Proof.
  apply (@X11_models_stay_as_loaded bump_allocator abi_arm64_v8a demo_heap).
  apply (reachable_step abi_arm64_v8a (CallLoadModel (lit "model.gguf")) ∅);
    [apply reachable_init | vm_compute; reflexivity].
Defined.
